(** * Neyson: the Sphinx configuration [docs/conf.py]

    The repository's only source file is a Python module that the
    documentation builder executes once and whose module namespace it then
    reads as its configuration.  The development below keeps the file as
    text, reads it with a lexer and a parser for the fragment of Python
    the file is written in, executes the resulting statements over a
    namespace ([gmap string value]) in an error monad, and proves the
    properties of the resulting configuration. *)

From Stdlib Require Import String Ascii List Bool Arith Lia.
From stdpp Require Import gmap strings list fin_maps.
Import ListNotations.
#[local] Set Warnings "-register-all".
#[local] Open Scope string_scope.
#[local] Open Scope list_scope.

(** ** The source text *)

(** [docs/conf.py], byte for byte.  The file uses LF line ends and its
    last line has no terminator. *)
Definition conf_py : string :=
"# Configuration file for the Sphinx documentation builder.
#
# For the full list of built-in configuration values, see the documentation:
# https://www.sphinx-doc.org/en/master/usage/configuration.html

# -- Project information -----------------------------------------------------
# https://www.sphinx-doc.org/en/master/usage/configuration.html#project-information

project = 'Neyson'
copyright = '2025, Shahriar Rezghi'
author = 'Shahriar Rezghi'
release = '2025'

# -- General configuration ---------------------------------------------------
# https://www.sphinx-doc.org/en/master/usage/configuration.html#general-configuration

extensions = ['breathe', 'sphinx_rtd_theme', 'sphinx_togglebutton']

templates_path = ['_templates']
exclude_patterns = ['_build', 'Thumbs.db', '.DS_Store']

breathe_projects = {'Neyson': '_build/xml/'}
breathe_default_project = 'Neyson'

# -- Options for HTML output -------------------------------------------------
# https://www.sphinx-doc.org/en/master/usage/configuration.html#options-for-html-output

html_theme = 'sphinx_rtd_theme'
html_static_path = ['_static']
html_logo = '_static/logo-64.png'".

(** ** Lines *)

Definition LF : ascii := ascii_of_nat 10.

(** Python's [str.splitlines] restricted to the LF terminator: a
    terminator ends a line, text after the last terminator is a line of
    its own, and a final terminator opens no empty line. *)
Fixpoint split_lf (cur : list ascii) (cs : list ascii) : list string :=
  match cs with
  | [] =>
      match cur with
      | [] => []
      | _ :: _ => [string_of_list_ascii (rev cur)]
      end
  | c :: cs' =>
      if Ascii.eqb c LF
      then string_of_list_ascii (rev cur) :: split_lf [] cs'
      else split_lf (c :: cur) cs'
  end.

Definition splitlines (s : string) : list string :=
  split_lf [] (list_ascii_of_string s).

(** ** Lexer

    Tokens of one physical line.  The file has no bracket that stays open
    across a line end and no backslash continuation, so a physical line
    is a logical line. *)

Inductive token : Type :=
  | TName (x : string)
  | TKeyword (k : string)
  | TString (s : string)
  | TOp (c : ascii).

(** The reserved words of Python 3. *)
Definition keywords : list string :=
  [ "False"; "None"; "True"; "and"; "as"; "assert"; "async"; "await";
    "break"; "class"; "continue"; "def"; "del"; "elif"; "else"; "except";
    "finally"; "for"; "from"; "global"; "if"; "import"; "in"; "is";
    "lambda"; "nonlocal"; "not"; "or"; "pass"; "raise"; "return"; "try";
    "while"; "with"; "yield" ].

Definition in_range (lo hi : nat) (c : ascii) : bool :=
  Nat.leb lo (nat_of_ascii c) && Nat.leb (nat_of_ascii c) hi.

Definition is_blank (c : ascii) : bool :=
  Ascii.eqb c " " || Ascii.eqb c (ascii_of_nat 9) || Ascii.eqb c (ascii_of_nat 12).

Definition is_digit (c : ascii) : bool := in_range 48 57 c.

Definition is_ident_start (c : ascii) : bool :=
  in_range 97 122 c || in_range 65 90 c || Ascii.eqb c "_".

Definition is_ident_char (c : ascii) : bool :=
  is_ident_start c || is_digit c.

(** The characters of Python's operators and delimiters; each is lexed
    as a token of one character. *)
Definition op_chars : list ascii :=
  list_ascii_of_string "=[]{},:().;+-*/%<>!@&|^~".

Definition is_op (c : ascii) : bool :=
  existsb (Ascii.eqb c) op_chars.

Definition quote : ascii := "'".
Definition hash : ascii := "#".
Definition backslash : ascii := ascii_of_nat 92.

Definition word (acc : list ascii) : token :=
  let w := string_of_list_ascii (rev acc) in
  if existsb (String.eqb w) keywords then TKeyword w else TName w.

(** The lexer is a transducer over the characters of the line: it is in
    one of four modes and each character yields the next mode and the
    tokens completed by it. *)
Inductive lex_mode : Type :=
  | LStart
  | LName (acc : list ascii)
  | LStr (acc : list ascii)
  | LComment.

Definition lex_start (c : ascii) : option (lex_mode * list token) :=
  if is_blank c then Some (LStart, [])
  else if Ascii.eqb c hash then Some (LComment, [])
  else if Ascii.eqb c quote then Some (LStr [], [])
  else if is_ident_start c then Some (LName [c], [])
  else if is_op c then Some (LStart, [TOp c])
  else None.

Definition lex_step (m : lex_mode) (c : ascii) : option (lex_mode * list token) :=
  match m with
  | LStart => lex_start c
  | LName acc =>
      if is_ident_char c then Some (LName (c :: acc), [])
      else if Ascii.eqb c quote then None
      else
        match lex_start c with
        | Some (m', ts) => Some (m', word acc :: ts)
        | None => None
        end
  | LStr acc =>
      if Ascii.eqb c quote then Some (LStart, [TString (string_of_list_ascii (rev acc))])
      else if Ascii.eqb c backslash then None
      else Some (LStr (c :: acc), [])
  | LComment => Some (LComment, [])
  end.

Definition lex_end (m : lex_mode) : option (list token) :=
  match m with
  | LStart | LComment => Some []
  | LName acc => Some [word acc]
  | LStr _ => None
  end.

Fixpoint lex_from (m : lex_mode) (cs : list ascii) : option (list token) :=
  match cs with
  | [] => lex_end m
  | c :: cs' =>
      match lex_step m c with
      | Some (m', ts) =>
          match lex_from m' cs' with
          | Some rest => Some (ts ++ rest)
          | None => None
          end
      | None => None
      end
  end.

Definition lex_line (l : string) : option (list token) :=
  lex_from LStart (list_ascii_of_string l).

(** ** Parser

    The abstract syntax of the fragment: expressions are string
    literals, names, list displays and dict displays; a statement is an
    assignment to one name or an expression on its own.  Everything else
    of Python (numbers, calls, attribute access, operators, compound
    statements, ...) is outside the fragment and is refused by the
    parser. *)

Inductive expr : Type :=
  | EStr (s : string)
  | EName (x : string)
  | EList (es : list expr)
  | EDict (kvs : list (expr * expr)).

Inductive stmt : Type :=
  | SAssign (target : string) (e : expr)
  | SExpr (e : expr).

(** Recursive descent on the tokens; [n] bounds the depth of the
    recursion.  A trailing comma is accepted in both displays, as in
    Python. *)
Fixpoint parse_expr (n : nat) (ts : list token) : option (expr * list token) :=
  match n with
  | O => None
  | S n' =>
      match ts with
      | TString s :: r => Some (EStr s, r)
      | TName x :: r => Some (EName x, r)
      | TOp "["%char :: r =>
          match parse_elems n' r with
          | Some (es, r') => Some (EList es, r')
          | None => None
          end
      | TOp "{"%char :: r =>
          match parse_pairs n' r with
          | Some (kvs, r') => Some (EDict kvs, r')
          | None => None
          end
      | _ => None
      end
  end
with parse_elems (n : nat) (ts : list token) : option (list expr * list token) :=
  match n with
  | O => None
  | S n' =>
      match ts with
      | TOp "]"%char :: r => Some ([], r)
      | _ =>
          match parse_expr n' ts with
          | Some (e, TOp ","%char :: r) =>
              match parse_elems n' r with
              | Some (es, r') => Some (e :: es, r')
              | None => None
              end
          | Some (e, TOp "]"%char :: r) => Some ([e], r)
          | _ => None
          end
      end
  end
with parse_pairs (n : nat) (ts : list token) : option (list (expr * expr) * list token) :=
  match n with
  | O => None
  | S n' =>
      match ts with
      | TOp "}"%char :: r => Some ([], r)
      | _ =>
          match parse_expr n' ts with
          | Some (k, TOp ":"%char :: r) =>
              match parse_expr n' r with
              | Some (v, TOp ","%char :: r') =>
                  match parse_pairs n' r' with
                  | Some (kvs, r'') => Some ((k, v) :: kvs, r'')
                  | None => None
                  end
              | Some (v, TOp "}"%char :: r') => Some ([(k, v)], r')
              | _ => None
              end
          | _ => None
          end
      end
  end.

(** A whole expression: no token is left over.  Two levels of the
    recursion consume at least one token, which gives the bound. *)
Definition parse_whole (ts : list token) : option expr :=
  match parse_expr (2 * length ts + 2) ts with
  | Some (e, []) => Some e
  | _ => None
  end.

Definition parse_stmt (ts : list token) : option stmt :=
  match ts with
  | TName x :: TOp "="%char :: r => SAssign x <$> parse_whole r
  | _ => SExpr <$> parse_whole ts
  end.

Definition indented (l : string) : bool :=
  match l with
  | String c _ => is_blank c
  | EmptyString => false
  end.

(** A line holds no statement (it is empty, blank or a comment), or one
    statement that starts in the first column.  The interpreter refuses
    an indented statement at module level. *)
Definition parse_line (l : string) : option (option stmt) :=
  match lex_line l with
  | Some [] => Some None
  | Some ts => if indented l then None else Some <$> parse_stmt ts
  | None => None
  end.

Fixpoint parse_module (ls : list string) : option (list stmt) :=
  match ls with
  | [] => Some []
  | l :: ls' =>
      match parse_line l, parse_module ls' with
      | Some (Some s), Some m => Some (s :: m)
      | Some None, Some m => Some m
      | _, _ => None
      end
  end.

(** ** Values and the error monad *)

Inductive value : Type :=
  | VStr (s : string)
  | VList (l : list value)
  | VDict (d : list (string * value)).

Inductive exn : Type :=
  | SyntaxError
  | NameError (x : string)
  | TypeError (msg : string).

Inductive result (A : Type) : Type :=
  | Ok (a : A)
  | Raise (e : exn).
Arguments Ok {A} a.
Arguments Raise {A} e.

#[global] Instance result_ret : MRet result := fun _ a => Ok a.
#[global] Instance result_bind : MBind result := fun _ _ f r =>
  match r with
  | Ok a => f a
  | Raise e => Raise e
  end.
#[global] Instance result_fmap : FMap result := fun _ _ f r =>
  match r with
  | Ok a => Ok (f a)
  | Raise e => Raise e
  end.

(** A dict keeps its keys in insertion order; storing under a key that
    is present replaces the value where the key stands. *)
Fixpoint dict_set (k : string) (v : value) (d : list (string * value)) : list (string * value) :=
  match d with
  | [] => [(k, v)]
  | (k', v') :: d' =>
      if String.eqb k k' then (k, v) :: d' else (k', v') :: dict_set k v d'
  end.

Fixpoint dict_get (k : string) (d : list (string * value)) : option value :=
  match d with
  | [] => None
  | (k', v') :: d' => if String.eqb k k' then Some v' else dict_get k d'
  end.

(** The keys of a dict are hashable values; of the values of the
    fragment only strings are (lists and dicts are not). *)
Fixpoint build_dict (kvs : list (value * value)) (d : list (string * value))
  : result (list (string * value)) :=
  match kvs with
  | [] => Ok d
  | (VStr k, v) :: kvs' => build_dict kvs' (dict_set k v d)
  | (_, _) :: _ => Raise (TypeError "unhashable type")
  end.

(** ** Evaluation and execution

    A name is looked up in the namespace the module runs in (the
    builtins count as part of it); an unbound name raises.  A dict
    display evaluates its pairs from left to right, the key before the
    value, and then builds the dict. *)
Fixpoint eval (ns : gmap string value) (e : expr) : result value :=
  match e with
  | EStr s => Ok (VStr s)
  | EName x =>
      match ns !! x with
      | Some v => Ok v
      | None => Raise (NameError x)
      end
  | EList es =>
      vs ← mapM (eval ns) es;
      Ok (VList vs)
  | EDict kvs =>
      ps ← mapM (fun '(k, v) => kv ← eval ns k; vv ← eval ns v; Ok (kv, vv)) kvs;
      d ← build_dict ps [];
      Ok (VDict d)
  end.

Definition exec (s : stmt) (ns : gmap string value) : result (gmap string value) :=
  match s with
  | SAssign x e => v ← eval ns e; Ok (<[x := v]> ns)
  | SExpr e => _ ← eval ns e; Ok ns
  end.

Fixpoint exec_module (m : list stmt) (ns : gmap string value) : result (gmap string value) :=
  match m with
  | [] => Ok ns
  | s :: m' => ns' ← exec s ns; exec_module m' ns'
  end.

(** Loading the configuration: the text is parsed and the module is
    executed in the namespace [ns0] that the builder prepared. *)
Definition load_conf (ns0 : gmap string value) : result (gmap string value) :=
  match parse_module (splitlines conf_py) with
  | Some m => exec_module m ns0
  | None => Raise SyntaxError
  end.

(** ** The module of [docs/conf.py]

    The twelve statements of the file, in source order (lines 9-12, 17,
    19, 20, 22, 23 and 28-30).  [parse_conf_py] below shows that this is
    what the parser reads from the text. *)
Definition conf_ast : list stmt :=
  [ SAssign "project" (EStr "Neyson");
    SAssign "copyright" (EStr "2025, Shahriar Rezghi");
    SAssign "author" (EStr "Shahriar Rezghi");
    SAssign "release" (EStr "2025");
    SAssign "extensions"
      (EList [EStr "breathe"; EStr "sphinx_rtd_theme"; EStr "sphinx_togglebutton"]);
    SAssign "templates_path" (EList [EStr "_templates"]);
    SAssign "exclude_patterns" (EList [EStr "_build"; EStr "Thumbs.db"; EStr ".DS_Store"]);
    SAssign "breathe_projects" (EDict [(EStr "Neyson", EStr "_build/xml/")]);
    SAssign "breathe_default_project" (EStr "Neyson");
    SAssign "html_theme" (EStr "sphinx_rtd_theme");
    SAssign "html_static_path" (EList [EStr "_static"]);
    SAssign "html_logo" (EStr "_static/logo-64.png") ].

(** The bindings the module makes when it runs in an empty namespace. *)
Definition conf_values : gmap string value :=
  match load_conf ∅ with
  | Ok ns => ns
  | Raise _ => ∅
  end.

(** The names a module assigns, in order, with repetitions. *)
Definition targets (m : list stmt) : list string :=
  flat_map (fun s => match s with SAssign x _ => [x] | SExpr _ => [] end) m.

(** ** Static shape

    An expression is static when it reads no name and every dict key is
    a string literal: nothing in it can raise, and its value does not
    depend on the namespace. *)
Definition is_str_literal (e : expr) : bool :=
  match e with
  | EStr _ => true
  | _ => false
  end.

Fixpoint static (e : expr) : bool :=
  match e with
  | EStr _ => true
  | EName _ => false
  | EList es => forallb static es
  | EDict kvs => forallb (fun kv => is_str_literal (fst kv) && static (snd kv)) kvs
  end.

Definition static_stmt (s : stmt) : bool :=
  match s with
  | SAssign _ e => static e
  | SExpr e => static e
  end.

Definition is_assign (s : stmt) : bool :=
  match s with
  | SAssign _ _ => true
  | SExpr _ => false
  end.

(** The tokens of all lines, when every line lexes. *)
Fixpoint lex_lines (ls : list string) : option (list token) :=
  match ls with
  | [] => Some []
  | l :: ls' =>
      match lex_line l, lex_lines ls' with
      | Some ts, Some rest => Some (ts ++ rest)
      | _, _ => None
      end
  end.

(** Loops, conditionals and definitions start with a reserved word, and
    a call needs a parenthesis: a token that is neither cannot belong to
    any of them. *)
Definition plain_token (t : token) : bool :=
  match t with
  | TKeyword _ => false
  | TOp c => negb (Ascii.eqb c "(" || Ascii.eqb c ")")
  | TName _ | TString _ => true
  end.

(** How the lines of the file divide. *)
Inductive line_kind : Type :=
  | BlankLine
  | CommentLine
  | CodeLine.

Definition kind_of_line (l : string) : option line_kind :=
  match lex_line l with
  | Some [] => Some (if existsb (Ascii.eqb hash) (list_ascii_of_string l)
                     then CommentLine else BlankLine)
  | Some (_ :: _) => Some CodeLine
  | None => None
  end.

#[global] Instance line_kind_eq_dec : EqDecision line_kind.
Proof. solve_decision. Defined.

Definition count_lines (k : line_kind) (ls : list string) : nat :=
  length (filter (fun l => kind_of_line l = Some k) ls).

(** ** Semantic types of the data model *)

Inductive ty : Type :=
  | TyStr
  | TySeq (elt : ty)
  | TyMap (key val : ty).

Fixpoint has_type (t : ty) (v : value) : bool :=
  match t, v with
  | TyStr, VStr _ => true
  | TySeq elt, VList l => forallb (has_type elt) l
  | TyMap key val, VDict d =>
      forallb (fun kv => has_type key (VStr (fst kv)) && has_type val (snd kv)) d
  | _, _ => false
  end.

(** The data-model table of the specification, row by row. *)
Definition spec_data_model : list (string * ty) :=
  [ ("project", TyStr);
    ("copyright", TyStr);
    ("author", TyStr);
    ("release", TyStr);
    ("extensions", TySeq TyStr);
    ("templates_path", TySeq TyStr);
    ("exclude_patterns", TySeq TyStr);
    ("breathe_projects", TyMap TyStr TyStr);
    ("breathe_default_project", TyStr);
    ("html_theme", TyStr);
    ("html_static_path", TySeq TyStr);
    ("html_logo", TyStr) ].

(** The keys the table lists. *)
Definition config_keys : list string := map fst spec_data_model.

(** A row of the table holds in a namespace when its key is bound to a
    value of its type. *)
Definition well_typed (ns : gmap string value) (row : string * ty) : bool :=
  match ns !! fst row with
  | Some v => has_type (snd row) v
  | None => false
  end.

(** ** Kinds of setting

    What each key configures, after the meaning column of the data-model
    table.  [release] is taken as project metadata: the file sets it in
    its project-information section next to the name, the author and
    the copyright. *)
Inductive setting_kind : Type :=
  | Metadata
  | ExtensionList
  | PathDeclaration
  | ThemeSelection
  | SourceExclusion
  | BreatheSetting
  | LogoImage
  | Unclassified.

#[global] Instance setting_kind_eq_dec : EqDecision setting_kind.
Proof. solve_decision. Defined.

Definition kind_of_key (k : string) : setting_kind :=
  if existsb (String.eqb k) ["project"; "copyright"; "author"; "release"] then Metadata
  else if String.eqb k "extensions" then ExtensionList
  else if existsb (String.eqb k) ["templates_path"; "html_static_path"] then PathDeclaration
  else if String.eqb k "html_theme" then ThemeSelection
  else if String.eqb k "exclude_patterns" then SourceExclusion
  else if existsb (String.eqb k) ["breathe_projects"; "breathe_default_project"] then BreatheSetting
  else if String.eqb k "html_logo" then LogoImage
  else Unclassified.

(** The four kinds of setting that the overview of the specification
    names. *)
Definition spec_overview_kinds : list setting_kind :=
  [Metadata; ExtensionList; PathDeclaration; ThemeSelection].

(** ** Paths *)

(** [str.split] on one separator character: the pieces between the
    separators, empty pieces included. *)
Fixpoint split_on (sep : ascii) (cur : list ascii) (cs : list ascii) : list string :=
  match cs with
  | [] => [string_of_list_ascii (rev cur)]
  | c :: cs' =>
      if Ascii.eqb c sep
      then string_of_list_ascii (rev cur) :: split_on sep [] cs'
      else split_on sep (c :: cur) cs'
  end.

(** The components of a relative path: the pieces between slashes, the
    empty ones (doubled or trailing slash) dropped. *)
Definition path_components (p : string) : list string :=
  filter (fun c => c ≠ "") (split_on "/" [] (list_ascii_of_string p)).

(** [p] lies under the directory [dir]: the components of [dir] are not
    empty and they begin the components of [p]. *)
Definition lies_under (dir p : string) : Prop :=
  path_components dir ≠ [] ∧ path_components dir `prefix_of` path_components p.

#[global] Instance lies_under_dec dir p : Decision (lies_under dir p).
Proof. unfold lies_under. apply _. Defined.

(** ** Loading any text

    [load_conf] with the lines as a parameter: the lines are parsed and
    the module is executed in [ns0]. *)
Definition load_lines (ls : list string) (ns0 : gmap string value)
  : result (gmap string value) :=
  match parse_module ls with
  | Some m => exec_module m ns0
  | None => Raise SyntaxError
  end.

(** ** Shape of the values *)

Definition is_seq (t : ty) : bool :=
  match t with
  | TySeq _ => true
  | _ => false
  end.

Definition is_absolute (p : string) : bool :=
  match p with
  | String c _ => Ascii.eqb c "/"
  | EmptyString => false
  end.

(** A path that stays inside the directory it is resolved against: it
    is relative, it names something, and no component steps up. *)
Definition stays_inside (p : string) : Prop :=
  is_absolute p = false ∧ path_components p ≠ [] ∧ ".." ∉ path_components p.

#[global] Instance stays_inside_dec p : Decision (stays_inside p).
Proof. unfold stays_inside. apply _. Defined.

(** A string that the lexer reads as one name: a Python identifier
    that is not a reserved word. *)
Definition is_identifier (s : string) : Prop :=
  lex_line s = Some [TName s].

(** ** Induction on expressions

    [expr] is nested in [list]; the principle gives the induction
    hypothesis for every element of a display. *)
Section expr_induction.
Variable P : expr → Prop.
Hypothesis HStr : ∀ s, P (EStr s).
Hypothesis HName : ∀ x, P (EName x).
Hypothesis HList : ∀ es, Forall P es → P (EList es).
Hypothesis HDict : ∀ kvs, Forall (fun kv => P (fst kv) ∧ P (snd kv)) kvs → P (EDict kvs).

Fixpoint expr_nested_ind (e : expr) : P e :=
  match e with
  | EStr s => HStr s
  | EName x => HName x
  | EList es =>
      HList es
        ((fix go (l : list expr) : Forall P l :=
            match l with
            | [] => Forall_nil_2 P
            | e' :: l' => Forall_cons_2 P e' l' (expr_nested_ind e') (go l')
            end) es)
  | EDict kvs =>
      HDict kvs
        ((fix go (l : list (expr * expr)) : Forall (fun kv => P (fst kv) ∧ P (snd kv)) l :=
            match l with
            | [] => Forall_nil_2 _
            | (k, v) :: l' =>
                Forall_cons_2 _ (k, v) l'
                  (conj (expr_nested_ind k) (expr_nested_ind v)) (go l')
            end) kvs)
  end.
End expr_induction.

(** * Properties *)

(** ** The reader on the file *)

Lemma parse_conf_py : parse_module (splitlines conf_py) = Some conf_ast.
Proof. vm_compute. reflexivity. Qed.

Lemma load_conf_exec ns0 : load_conf ns0 = exec_module conf_ast ns0.
Proof. unfold load_conf. rewrite parse_conf_py. reflexivity. Qed.

(** The reader and the interpreter on inputs outside the file: what the
    file is shown not to contain is refused or raises. *)

Example parse_trailing_comma :
  parse_module ["x = ['a', {'k': y,},]"; "  # note"; "'doc'"] =
    Some [SAssign "x" (EList [EStr "a"; EDict [(EStr "k", EName "y")]]);
          SExpr (EStr "doc")].
Proof. vm_compute. reflexivity. Qed.

Example parse_refuses_call : parse_module ["x = f('a')"] = None.
Proof. vm_compute. reflexivity. Qed.

Example parse_refuses_conditional : parse_module ["if x: y = 'a'"] = None.
Proof. vm_compute. reflexivity. Qed.

Example parse_refuses_indent : parse_module [" x = 'a'"] = None.
Proof. vm_compute. reflexivity. Qed.

Example lex_loop_not_plain :
  forallb plain_token <$> lex_line "for x in y: z = x" = Some false.
Proof. vm_compute. reflexivity. Qed.

Example exec_unbound_name :
  exec_module [SAssign "x" (EName "y")] ∅ = Raise (NameError "y").
Proof. vm_compute. reflexivity. Qed.

Example exec_unhashable_key :
  exec_module [SAssign "x" (EDict [(EList [], EStr "a")])] ∅ =
    Raise (TypeError "unhashable type").
Proof. vm_compute. reflexivity. Qed.

Example exec_rebinding :
  (fun ns => ns !! "x") <$>
    exec_module [SAssign "x" (EStr "a"); SAssign "y" (EName "x"); SAssign "x" (EStr "b")] ∅ =
    Ok (Some (VStr "b")).
Proof. vm_compute. reflexivity. Qed.

Example lies_under_needs_whole_component : ¬ lies_under "_build" "_buildx/xml/".
Proof. compute_done. Qed.

(** ** Static expressions neither raise nor read the namespace *)

Lemma build_dict_str_keys ps :
  Forall (fun p => ∃ k, fst p = VStr k) ps →
  ∀ d, ∃ d', build_dict ps d = Ok d'.
Proof.
  induction 1 as [|[kv vv] ps [k Hk] _ IH]; intros d; simpl.
  - by exists d.
  - simpl in Hk. subst kv. apply IH.
Qed.

Lemma mapM_static_list es :
  Forall (fun e => static e = true → ∃ v, ∀ ns, eval ns e = Ok v) es →
  forallb static es = true →
  ∃ vs, ∀ ns, mapM (eval ns) es = Ok vs.
Proof.
  induction 1 as [|e es He _ IH]; simpl; intros Hs.
  - by exists [].
  - apply andb_true_iff in Hs as [Hs1 Hs2].
    destruct (He Hs1) as [v Hv], (IH Hs2) as [vs Hvs].
    exists (v :: vs). intros ns. by rewrite Hv, Hvs.
Qed.

Lemma mapM_static_pairs kvs :
  Forall (fun kv =>
            (static (fst kv) = true → ∃ v, ∀ ns, eval ns (fst kv) = Ok v) ∧
            (static (snd kv) = true → ∃ v, ∀ ns, eval ns (snd kv) = Ok v)) kvs →
  forallb (fun kv => is_str_literal (fst kv) && static (snd kv)) kvs = true →
  ∃ ps,
    Forall (fun p => ∃ k, fst p = VStr k) ps ∧
    ∀ ns, mapM (fun '(k, v) => kv ← eval ns k; vv ← eval ns v; Ok (kv, vv)) kvs = Ok ps.
Proof.
  induction 1 as [|[k v] kvs [_ Hv] _ IH]; simpl; intros Hs.
  - exists []. by split.
  - apply andb_true_iff in Hs as [Hs1 Hs2].
    apply andb_true_iff in Hs1 as [Hk Hsv].
    destruct k as [s| | |]; try discriminate.
    destruct (Hv Hsv) as [vv Hvv], (IH Hs2) as (ps & Hps & Hall).
    exists ((VStr s, vv) :: ps). split.
    + constructor; [by exists s | done].
    + intros ns. simpl. by rewrite Hvv, Hall.
Qed.

(** A static expression has one value, whatever the namespace. *)
Lemma eval_static e : static e = true → ∃ v, ∀ ns, eval ns e = Ok v.
Proof.
  induction e as [s|x|es IH|kvs IH] using expr_nested_ind; simpl; intros Hs.
  - by exists (VStr s).
  - discriminate.
  - destruct (mapM_static_list es IH Hs) as [vs Hvs].
    exists (VList vs). intros ns. by rewrite Hvs.
  - destruct (mapM_static_pairs kvs IH Hs) as (ps & Hkeys & Hps).
    destruct (build_dict_str_keys ps Hkeys []) as [d Hd].
    exists (VDict d). intros ns. rewrite Hps. simpl. by rewrite Hd.
Qed.

(** A module of static statements never raises; what it binds does not
    depend on the namespace it starts in, and its bindings shadow that
    namespace. *)
Lemma exec_module_static m :
  forallb static_stmt m = true →
  ∃ bs : gmap string value, ∀ ns, exec_module m ns = Ok (bs ∪ ns).
Proof.
  induction m as [|s m IH]; simpl; intros Hs.
  - exists ∅. intros ns. by rewrite (left_id_L ∅ (∪)).
  - apply andb_true_iff in Hs as [Hs1 Hs2].
    destruct (IH Hs2) as [bs Hbs].
    destruct s as [x e|e]; simpl in Hs1; destruct (eval_static e Hs1) as [v Hv].
    + exists (bs ∪ {[x := v]}). intros ns. simpl. rewrite Hv. simpl.
      by rewrite Hbs, insert_union_singleton_l, (assoc_L (∪)).
    + exists bs. intros ns. simpl. rewrite Hv. simpl. apply Hbs.
Qed.

Lemma conf_ast_static : forallb static_stmt conf_ast = true.
Proof. reflexivity. Qed.

(** Loading never fails: the result is the file's own bindings laid
    over the initial namespace. *)
Lemma load_conf_ok ns0 : load_conf ns0 = Ok (conf_values ∪ ns0).
Proof.
  destruct (exec_module_static conf_ast conf_ast_static) as [bs Hbs].
  assert (conf_values = bs) as ->.
  { unfold conf_values. rewrite load_conf_exec, Hbs. apply (right_id_L ∅ (∪)). }
  rewrite load_conf_exec. apply Hbs.
Qed.

Lemma load_conf_lookup ns0 k v :
  conf_values !! k = Some v →
  ∃ ns, load_conf ns0 = Ok ns ∧ ns !! k = Some v.
Proof.
  intros Hk. exists (conf_values ∪ ns0). split; [apply load_conf_ok|].
  by apply lookup_union_Some_l.
Qed.

(** ** A module binds its targets and nothing else *)

Lemma exec_inv s ns ns' :
  exec s ns = Ok ns' →
  match s with
  | SAssign x e => ∃ v, eval ns e = Ok v ∧ ns' = <[x := v]> ns
  | SExpr _ => ns' = ns
  end.
Proof.
  destruct s as [x e|e]; simpl; destruct (eval ns e) as [v|err]; simpl;
    intros H; inversion H; eauto.
Qed.

Lemma exec_module_cons_inv s m ns ns' :
  exec_module (s :: m) ns = Ok ns' →
  ∃ ns1, exec s ns = Ok ns1 ∧ exec_module m ns1 = Ok ns'.
Proof.
  simpl. destruct (exec s ns) as [ns1|err]; simpl; [eauto | discriminate].
Qed.

Lemma exec_module_other m k :
  k ∉ targets m →
  ∀ ns ns', exec_module m ns = Ok ns' → ns' !! k = ns !! k.
Proof.
  induction m as [|s m IH]; intros Hk ns ns' Hrun.
  - simpl in Hrun. by inversion Hrun.
  - apply exec_module_cons_inv in Hrun as (ns1 & Hs & Hm).
    change (targets (s :: m)) with
      (match s with SAssign x _ => [x] | SExpr _ => [] end ++ targets m) in Hk.
    apply not_elem_of_app in Hk as [Hk1 Hk2].
    rewrite (IH Hk2 _ _ Hm).
    apply exec_inv in Hs. destruct s as [x e|e].
    + destruct Hs as (v & _ & ->). apply lookup_insert_ne.
      intros ->. apply Hk1. by apply list_elem_of_singleton.
    + by subst ns1.
Qed.

Lemma exec_module_defines m k :
  k ∈ targets m →
  ∀ ns ns', exec_module m ns = Ok ns' → is_Some (ns' !! k).
Proof.
  induction m as [|s m IH]; intros Hk ns ns' Hrun.
  - by apply elem_of_nil in Hk.
  - apply exec_module_cons_inv in Hrun as (ns1 & Hs & Hm).
    destruct (decide (k ∈ targets m)) as [Hin|Hout]; [by eapply IH|].
    rewrite (exec_module_other m k Hout _ _ Hm).
    change (targets (s :: m)) with
      (match s with SAssign x _ => [x] | SExpr _ => [] end ++ targets m) in Hk.
    apply elem_of_app in Hk as [Hk|Hk]; [|done].
    apply exec_inv in Hs. destruct s as [x e|e].
    + apply list_elem_of_singleton in Hk as ->.
      destruct Hs as (v & _ & ->). rewrite lookup_insert_eq. by eexists.
    + by apply elem_of_nil in Hk.
Qed.

(** ** The values of the configuration keys *)

Lemma conf_project : conf_values !! "project" = Some (VStr "Neyson").
Proof. vm_compute. reflexivity. Qed.

Lemma conf_extensions :
  conf_values !! "extensions" =
    Some (VList [VStr "breathe"; VStr "sphinx_rtd_theme"; VStr "sphinx_togglebutton"]).
Proof. vm_compute. reflexivity. Qed.

Lemma conf_exclude_patterns :
  conf_values !! "exclude_patterns" =
    Some (VList [VStr "_build"; VStr "Thumbs.db"; VStr ".DS_Store"]).
Proof. vm_compute. reflexivity. Qed.

Lemma conf_breathe_projects :
  conf_values !! "breathe_projects" = Some (VDict [("Neyson", VStr "_build/xml/")]).
Proof. vm_compute. reflexivity. Qed.

Lemma conf_breathe_default_project :
  conf_values !! "breathe_default_project" = Some (VStr "Neyson").
Proof. vm_compute. reflexivity. Qed.

Lemma conf_html_theme : conf_values !! "html_theme" = Some (VStr "sphinx_rtd_theme").
Proof. vm_compute. reflexivity. Qed.

Lemma conf_html_static_path :
  conf_values !! "html_static_path" = Some (VList [VStr "_static"]).
Proof. vm_compute. reflexivity. Qed.

Lemma conf_html_logo : conf_values !! "html_logo" = Some (VStr "_static/logo-64.png").
Proof. vm_compute. reflexivity. Qed.

Lemma conf_values_typed : forallb (well_typed conf_values) spec_data_model = true.
Proof. vm_compute. reflexivity. Qed.

Lemma well_typed_union (bs ns0 : gmap string value) row :
  well_typed bs row = true → well_typed (bs ∪ ns0) row = true.
Proof.
  unfold well_typed. destruct (bs !! fst row) as [v|] eqn:Hv; [|discriminate].
  intros Ht. by rewrite (lookup_union_Some_l bs ns0 _ v Hv).
Qed.

(** * The configuration properties *)

(** C1.  In the loaded configuration [breathe_default_project] is the
    string 'Neyson', that string is a key of the [breathe_projects]
    mapping, and the mapping sends it to the generated-XML directory
    '_build/xml/'. *)
Theorem C1_default_project_is_key (ns0 : gmap string value) :
  ∃ ns p d,
    load_conf ns0 = Ok ns ∧
    ns !! "breathe_default_project" = Some (VStr p) ∧
    ns !! "breathe_projects" = Some (VDict d) ∧
    is_Some (dict_get p d) ∧
    p = "Neyson" ∧
    dict_get "Neyson" d = Some (VStr "_build/xml/").
Proof.
  exists (conf_values ∪ ns0), "Neyson", [("Neyson", VStr "_build/xml/")].
  split; [apply load_conf_ok|].
  split; [apply lookup_union_Some_l, conf_breathe_default_project|].
  split; [apply lookup_union_Some_l, conf_breathe_projects|].
  split; [by eexists|]. by split.
Qed.

(** C2, as stated: every key the file binds is of one of the four kinds
    of the overview (metadata, extension list, static/template path
    declaration, theme selection).  This fails: [breathe_projects] is
    bound by the file and is a setting of the Breathe extension. *)
Lemma C2_counterexample :
  "breathe_projects" ∈ targets conf_ast ∧
  kind_of_key "breathe_projects" = BreatheSetting ∧
  ¬ Forall (fun k => kind_of_key k ∈ spec_overview_kinds) (targets conf_ast).
Proof.
  split; [compute_done|]. split; [reflexivity|].
  intros Hall. rewrite Forall_forall in Hall.
  specialize (Hall "breathe_projects"). revert Hall.
  compute_done.
Qed.

(** C2, amended.  Every key the file binds is of one of seven kinds: the
    four of the overview, or source-exclusion patterns, settings of the
    Breathe extension, or the logo image.  Each of the seven kinds
    occurs, and the keys outside the four kinds of the overview are
    [exclude_patterns], [breathe_projects], [breathe_default_project]
    and [html_logo]. *)
Theorem C2_setting_kinds :
  parse_module (splitlines conf_py) = Some conf_ast ∧
  Forall (fun k => kind_of_key k ∈
                     spec_overview_kinds ++ [SourceExclusion; BreatheSetting; LogoImage])
         (targets conf_ast) ∧
  Forall (fun kd => Exists (fun k => kind_of_key k = kd) (targets conf_ast))
         (spec_overview_kinds ++ [SourceExclusion; BreatheSetting; LogoImage]) ∧
  filter (fun k => kind_of_key k ∉ spec_overview_kinds) (targets conf_ast) =
    ["exclude_patterns"; "breathe_projects"; "breathe_default_project"; "html_logo"].
Proof.
  split; [apply parse_conf_py|].
  split; [compute_done|].
  split; [compute_done|].
  reflexivity.
Qed.

(** C3.  Loading binds every key of the data-model table to a value of
    the semantic type the table gives: strings for [project],
    [copyright], [author], [release], [breathe_default_project],
    [html_theme] and [html_logo]; sequences of strings for [extensions],
    [templates_path], [exclude_patterns] and [html_static_path]; a
    mapping from string to string for [breathe_projects].  The keys of
    the table are the keys the file binds. *)
Theorem C3_semantic_types (ns0 : gmap string value) :
  ∃ ns,
    load_conf ns0 = Ok ns ∧
    targets conf_ast = config_keys ∧
    Forall (fun row => ∃ v, ns !! fst row = Some v ∧ has_type (snd row) v = true)
           spec_data_model.
Proof.
  exists (conf_values ∪ ns0). split; [apply load_conf_ok|]. split; [reflexivity|].
  apply Forall_forall. intros row Hrow.
  pose proof conf_values_typed as Ht. rewrite forallb_forall in Ht.
  specialize (Ht row (proj1 (list_elem_of_In _ _) Hrow)).
  apply (well_typed_union _ ns0) in Ht. unfold well_typed in Ht.
  destruct ((conf_values ∪ ns0) !! fst row) as [v|]; [|discriminate].
  by exists v.
Qed.

(** C4.  The file has exactly 30 lines: 8 blank, 10 comment and 12 code
    lines.  It parses to [conf_ast]; every statement is an assignment of
    a static display (strings, lists and dicts of literals) to a plain
    name; no token is a reserved word or a parenthesis, so there is no
    loop, conditional, definition or call; and no name is assigned
    twice. *)
Theorem C4_declarative :
  length (splitlines conf_py) = 30 ∧
  count_lines BlankLine (splitlines conf_py) = 8 ∧
  count_lines CommentLine (splitlines conf_py) = 10 ∧
  count_lines CodeLine (splitlines conf_py) = 12 ∧
  parse_module (splitlines conf_py) = Some conf_ast ∧
  length conf_ast = 12 ∧
  forallb (fun s => is_assign s && static_stmt s) conf_ast = true ∧
  (∃ ts, lex_lines (splitlines conf_py) = Some ts ∧ forallb plain_token ts = true) ∧
  NoDup (targets conf_ast).
Proof.
  repeat split; try (vm_compute; reflexivity).
  - eexists. split; vm_compute; reflexivity.
  - compute_done.
Qed.

(** C5.  The loaded [extensions] is a sequence that contains the plugin
    name 'breathe'. *)
Theorem C5_breathe_extension (ns0 : gmap string value) :
  ∃ ns exts,
    load_conf ns0 = Ok ns ∧
    ns !! "extensions" = Some (VList exts) ∧
    VStr "breathe" ∈ exts.
Proof.
  eexists (conf_values ∪ ns0), _. split; [apply load_conf_ok|].
  split; [apply lookup_union_Some_l, conf_extensions|].
  apply list_elem_of_here.
Qed.

(** C6.  The loaded [project] is the string 'Neyson'. *)
Theorem C6_project_name (ns0 : gmap string value) :
  ∃ ns, load_conf ns0 = Ok ns ∧ ns !! "project" = Some (VStr "Neyson").
Proof. apply load_conf_lookup, conf_project. Qed.

(** C7.  Loading the configuration succeeds from every initial
    namespace: it raises nothing, it binds each of the twelve listed
    keys, and it leaves every other name as it was. *)
Theorem C7_load_total (ns0 : gmap string value) :
  ∃ ns,
    load_conf ns0 = Ok ns ∧
    length config_keys = 12 ∧
    NoDup config_keys ∧
    (∀ k, k ∈ config_keys → is_Some (ns !! k)) ∧
    (∀ k, k ∉ config_keys → ns !! k = ns0 !! k).
Proof.
  exists (conf_values ∪ ns0).
  pose proof (load_conf_ok ns0) as Hload.
  split; [done|]. split; [reflexivity|]. split; [compute_done|].
  rewrite load_conf_exec in Hload. split; intros k Hk.
  - by apply (exec_module_defines conf_ast k Hk ns0).
  - by apply (exec_module_other conf_ast k Hk ns0).
Qed.

(** C8.  The string the loaded [html_theme] holds, 'sphinx_rtd_theme',
    is an element of the loaded [extensions]. *)
Theorem C8_theme_in_extensions (ns0 : gmap string value) :
  ∃ ns theme exts,
    load_conf ns0 = Ok ns ∧
    ns !! "html_theme" = Some (VStr theme) ∧
    ns !! "extensions" = Some (VList exts) ∧
    theme = "sphinx_rtd_theme" ∧
    VStr theme ∈ exts.
Proof.
  eexists (conf_values ∪ ns0), _, _. split; [apply load_conf_ok|].
  split; [apply lookup_union_Some_l, conf_html_theme|].
  split; [apply lookup_union_Some_l, conf_extensions|].
  split; [reflexivity|]. apply list_elem_of_further, list_elem_of_here.
Qed.

(** C9.  Every entry of the loaded [breathe_projects] holds a directory
    (here the one entry, '_build/xml/') that lies under one of the
    loaded [exclude_patterns] (here '_build'). *)
Theorem C9_xml_under_excluded (ns0 : gmap string value) :
  ∃ ns d pats,
    load_conf ns0 = Ok ns ∧
    ns !! "breathe_projects" = Some (VDict d) ∧
    ns !! "exclude_patterns" = Some (VList pats) ∧
    d = [("Neyson", VStr "_build/xml/")] ∧
    VStr "_build" ∈ pats ∧
    Forall (fun entry =>
              ∃ dir pat, snd entry = VStr dir ∧ VStr pat ∈ pats ∧ lies_under pat dir) d.
Proof.
  eexists (conf_values ∪ ns0), _, _. split; [apply load_conf_ok|].
  split; [apply lookup_union_Some_l, conf_breathe_projects|].
  split; [apply lookup_union_Some_l, conf_exclude_patterns|].
  split; [reflexivity|]. split; [apply list_elem_of_here|].
  constructor; [|constructor].
  exists "_build/xml/", "_build". split; [reflexivity|].
  split; [apply list_elem_of_here|]. compute_done.
Qed.

(** C10.  The loaded [html_static_path] has one entry, '_static', and
    the loaded [html_logo], '_static/logo-64.png', lies under it. *)
Theorem C10_logo_under_static (ns0 : gmap string value) :
  ∃ ns dir logo,
    load_conf ns0 = Ok ns ∧
    ns !! "html_static_path" = Some (VList [VStr dir]) ∧
    ns !! "html_logo" = Some (VStr logo) ∧
    dir = "_static" ∧
    logo = "_static/logo-64.png" ∧
    lies_under dir logo.
Proof.
  eexists (conf_values ∪ ns0), _, _. split; [apply load_conf_ok|].
  split; [apply lookup_union_Some_l, conf_html_static_path|].
  split; [apply lookup_union_Some_l, conf_html_logo|].
  split; [reflexivity|]. split; [reflexivity|]. compute_done.
Qed.

(** * Further properties of the configuration *)

(** ** Reordering *)

Lemma exec_static s :
  static_stmt s = true →
  match s with
  | SAssign x _ => ∃ v, ∀ ns, exec s ns = Ok (<[x := v]> ns)
  | SExpr _ => ∀ ns, exec s ns = Ok ns
  end.
Proof.
  destruct s as [x e|e]; simpl; intros Hs; destruct (eval_static e Hs) as [v Hv].
  - exists v. intros ns. by rewrite Hv.
  - intros ns. by rewrite Hv.
Qed.

Lemma static_Permutation m m' :
  m ≡ₚ m' → forallb static_stmt m = true → forallb static_stmt m' = true.
Proof.
  intros Hp. rewrite !forallb_forall. intros Hall s Hs.
  apply Hall. by apply (Permutation_in _ (Permutation_sym Hp)).
Qed.

Lemma targets_Permutation m m' : m ≡ₚ m' → targets m ≡ₚ targets m'.
Proof. intros Hp. unfold targets. by apply Permutation_flat_map. Qed.

(** Two static statements with different targets commute. *)
Lemma exec_module_swap x y m ns :
  static_stmt x = true → static_stmt y = true →
  NoDup (targets (x :: y :: m)) →
  exec_module (y :: x :: m) ns = exec_module (x :: y :: m) ns.
Proof.
  intros Hx Hy Hnd. apply exec_static in Hx, Hy.
  destruct x as [tx ex|ex], y as [ty ey|ey]; cbn beta iota in Hx, Hy.
  - destruct Hx as [vx Hx], Hy as [vy Hy].
    assert (tx ≠ ty) as Hne.
    { intros ->. simpl in Hnd. apply NoDup_cons in Hnd as [Hnd _].
      apply Hnd, list_elem_of_here. }
    cbn [exec_module]. rewrite Hy, Hx. cbn [mbind result_bind].
    rewrite Hx, Hy. cbn [mbind result_bind].
    by rewrite (insert_insert_ne _ tx ty).
  - destruct Hx as [vx Hx].
    cbn [exec_module]. rewrite Hy, Hx. cbn [mbind result_bind].
    by rewrite Hx, Hy.
  - destruct Hy as [vy Hy].
    cbn [exec_module]. rewrite Hy, Hx. cbn [mbind result_bind].
    by rewrite Hx, Hy.
  - cbn [exec_module]. rewrite Hy, Hx. cbn [mbind result_bind].
    by rewrite Hx, Hy.
Qed.

(** A module of static statements that assigns no name twice gives the
    same result in every order of its statements. *)
Lemma exec_module_Permutation m m' :
  m ≡ₚ m' →
  forallb static_stmt m = true → NoDup (targets m) →
  ∀ ns, exec_module m ns = exec_module m' ns.
Proof.
  induction 1 as [|s m m' Hp IH|x y m|m m' m'' Hp1 IH1 Hp2 IH2];
    intros Hs Hnd ns.
  - reflexivity.
  - simpl in Hs. apply andb_true_iff in Hs as [Hs1 Hs2].
    change (targets (s :: m)) with
      (match s with SAssign x _ => [x] | SExpr _ => [] end ++ targets m) in Hnd.
    apply NoDup_app in Hnd as (_ & _ & Hnd).
    cbn [exec_module]. destruct (exec s ns) as [ns1|err]; cbn [mbind result_bind];
      [by apply IH | done].
  - apply exec_module_swap.
    + simpl in Hs. by repeat (apply andb_true_iff in Hs as [? Hs]).
    + simpl in Hs. by repeat (apply andb_true_iff in Hs as [? Hs]).
    + by rewrite <- (targets_Permutation _ _ (perm_swap x y m)).
  - rewrite (IH1 Hs Hnd ns). apply IH2.
    + by apply (static_Permutation m).
    + by rewrite <- (targets_Permutation _ _ Hp1).
Qed.

(** Reordering lines reorders the statements that are read from them. *)
Lemma parse_module_Permutation ls ls' :
  ls ≡ₚ ls' →
  ∀ m, parse_module ls = Some m → ∃ m', parse_module ls' = Some m' ∧ m ≡ₚ m'.
Proof.
  induction 1 as [|l ls ls' Hp IH|l1 l2 ls|ls ls' ls'' Hp1 IH1 Hp2 IH2]; intros m Hm.
  - exists m. by split.
  - simpl in Hm. simpl.
    destruct (parse_line l) as [[s|]|]; [| |done];
      destruct (parse_module ls) as [m0|]; try done;
      destruct (IH m0 eq_refl) as (m0' & -> & Hm0); inversion Hm; subst.
    + exists (s :: m0'). split; [done | by constructor].
    + exists m0'. by split.
  - simpl in Hm. simpl.
    destruct (parse_line l1) as [[s1|]|], (parse_line l2) as [[s2|]|];
      destruct (parse_module ls) as [m0|]; try done; inversion Hm; subst;
      eexists; (split; [reflexivity|]); try done.
    apply perm_swap.
  - destruct (IH1 m Hm) as (m' & Hm' & Hmm').
    destruct (IH2 m' Hm') as (m'' & Hm'' & Hmm'').
    exists m''. split; [done | by etrans].
Qed.

Lemma conf_ast_NoDup : NoDup (targets conf_ast).
Proof. compute_done. Qed.

Lemma load_conf_lines ns0 : load_conf ns0 = load_lines (splitlines conf_py) ns0.
Proof. reflexivity. Qed.

(** X1.  The lines of the file can be put in any order: every
    rearrangement of them loads, and gives the namespace that the file
    itself gives. *)
Theorem X1_line_order_irrelevant (ls : list string) (ns0 : gmap string value) :
  splitlines conf_py ≡ₚ ls →
  load_lines ls ns0 = load_conf ns0.
Proof.
  intros Hp.
  destruct (parse_module_Permutation _ _ Hp conf_ast parse_conf_py) as (m & Hm & Hperm).
  unfold load_lines. rewrite Hm, load_conf_exec. symmetry.
  apply exec_module_Permutation;
    [done | apply conf_ast_static | apply conf_ast_NoDup].
Qed.

Lemma X1_witness :
  load_lines (rev (splitlines conf_py)) ∅ = load_conf ∅.
Proof. apply X1_line_order_irrelevant. apply Permutation_rev. Defined.

(** X2.  Loading is idempotent: loading the file again in the namespace
    that a first load produced succeeds and changes nothing. *)
Theorem X2_reload_idempotent (ns0 : gmap string value) :
  ∃ ns, load_conf ns0 = Ok ns ∧ load_conf ns = Ok ns.
Proof.
  exists (conf_values ∪ ns0). split; [apply load_conf_ok|].
  rewrite load_conf_ok. by rewrite (assoc_L (∪)), (idemp_L (∪)).
Qed.

(** X3.  The configuration does not depend on the namespace the file is
    loaded in: two loads from any two initial namespaces bind each of
    the twelve keys to the same value, whatever the keys were bound to
    before. *)
Theorem X3_environment_independent (ns0 ns0' : gmap string value) :
  ∃ ns ns',
    load_conf ns0 = Ok ns ∧
    load_conf ns0' = Ok ns' ∧
    ∀ k, k ∈ config_keys → is_Some (ns !! k) ∧ ns !! k = ns' !! k.
Proof.
  exists (conf_values ∪ ns0), (conf_values ∪ ns0').
  split; [apply load_conf_ok|]. split; [apply load_conf_ok|].
  intros k Hk.
  assert (is_Some (conf_values !! k)) as Hsome.
  { apply (exec_module_defines conf_ast k Hk ∅).
    rewrite <- load_conf_exec, load_conf_ok. by rewrite (right_id_L ∅ (∪)). }
  rewrite !lookup_union_l' by done. by split.
Qed.

(** ** Relations between the values *)

Lemma conf_copyright :
  conf_values !! "copyright" = Some (VStr "2025, Shahriar Rezghi").
Proof. vm_compute. reflexivity. Qed.

Lemma conf_author : conf_values !! "author" = Some (VStr "Shahriar Rezghi").
Proof. vm_compute. reflexivity. Qed.

Lemma conf_release : conf_values !! "release" = Some (VStr "2025").
Proof. vm_compute. reflexivity. Qed.

Lemma conf_templates_path :
  conf_values !! "templates_path" = Some (VList [VStr "_templates"]).
Proof. vm_compute. reflexivity. Qed.

(** X4.  The copyright notice is made of the release label and the
    author: it is the release, a comma and a space, and the author. *)
Theorem X4_copyright_release_author (ns0 : gmap string value) :
  ∃ ns c r a,
    load_conf ns0 = Ok ns ∧
    ns !! "copyright" = Some (VStr c) ∧
    ns !! "release" = Some (VStr r) ∧
    ns !! "author" = Some (VStr a) ∧
    c = String.append r (String.append ", " a).
Proof.
  eexists (conf_values ∪ ns0), _, _, _. split; [apply load_conf_ok|].
  split; [apply lookup_union_Some_l, conf_copyright|].
  split; [apply lookup_union_Some_l, conf_release|].
  split; [apply lookup_union_Some_l, conf_author|].
  reflexivity.
Qed.

(** X5.  The documented project is the one Breathe project:
    [breathe_default_project] is the value of [project], and that name
    is the only key of [breathe_projects]. *)
Theorem X5_single_breathe_project (ns0 : gmap string value) :
  ∃ ns p d,
    load_conf ns0 = Ok ns ∧
    ns !! "project" = Some (VStr p) ∧
    ns !! "breathe_default_project" = Some (VStr p) ∧
    ns !! "breathe_projects" = Some (VDict d) ∧
    map fst d = [p].
Proof.
  eexists (conf_values ∪ ns0), _, _. split; [apply load_conf_ok|].
  split; [apply lookup_union_Some_l, conf_project|].
  split; [apply lookup_union_Some_l, conf_breathe_default_project|].
  split; [apply lookup_union_Some_l, conf_breathe_projects|].
  reflexivity.
Qed.

(** X6.  Every key that the data model types as a sequence is loaded as
    a list of strings that is not empty, repeats no entry and holds no
    empty string. *)
Theorem X6_sequences_well_formed (ns0 : gmap string value) :
  ∃ ns,
    load_conf ns0 = Ok ns ∧
    Forall (fun row =>
              is_seq (snd row) = true →
              ∃ ss, ns !! fst row = Some (VList (map VStr ss)) ∧
                    ss ≠ [] ∧ NoDup ss ∧ "" ∉ ss)
           spec_data_model.
Proof.
  exists (conf_values ∪ ns0). split; [apply load_conf_ok|].
  unfold spec_data_model.
  repeat apply Forall_cons_2; try apply Forall_nil_2;
    cbn [fst snd is_seq]; intros Hseq; try discriminate.
  - exists ["breathe"; "sphinx_rtd_theme"; "sphinx_togglebutton"].
    split; [apply lookup_union_Some_l, conf_extensions|].
    split; [done|]. split; compute_done.
  - exists ["_templates"].
    split; [apply lookup_union_Some_l, conf_templates_path|].
    split; [done|]. split; compute_done.
  - exists ["_build"; "Thumbs.db"; ".DS_Store"].
    split; [apply lookup_union_Some_l, conf_exclude_patterns|].
    split; [done|]. split; compute_done.
  - exists ["_static"].
    split; [apply lookup_union_Some_l, conf_html_static_path|].
    split; [done|]. split; compute_done.
Qed.

(** X7.  Every path the configuration names stays inside the directory
    it is resolved against: the entries of [templates_path] and
    [html_static_path], [html_logo] and the directories of
    [breathe_projects] are relative, not empty, and have no [..]
    component. *)
Theorem X7_paths_stay_inside (ns0 : gmap string value) :
  ∃ ns tp sp logo dirs,
    load_conf ns0 = Ok ns ∧
    ns !! "templates_path" = Some (VList (map VStr tp)) ∧
    ns !! "html_static_path" = Some (VList (map VStr sp)) ∧
    ns !! "html_logo" = Some (VStr logo) ∧
    ns !! "breathe_projects" = Some (VDict (map (fun kd => (fst kd, VStr (snd kd))) dirs)) ∧
    Forall stays_inside (tp ++ sp ++ logo :: map snd dirs).
Proof.
  exists (conf_values ∪ ns0), ["_templates"], ["_static"], "_static/logo-64.png",
    [("Neyson", "_build/xml/")].
  split; [apply load_conf_ok|].
  split; [apply lookup_union_Some_l, conf_templates_path|].
  split; [apply lookup_union_Some_l, conf_html_static_path|].
  split; [apply lookup_union_Some_l, conf_html_logo|].
  split; [apply lookup_union_Some_l, conf_breathe_projects|].
  compute_done.
Qed.

(** X8.  No template directory, static directory or logo lies under an
    entry of [exclude_patterns]: what the HTML output needs is not
    excluded. *)
Theorem X8_assets_not_excluded (ns0 : gmap string value) :
  ∃ ns tp sp logo pats,
    load_conf ns0 = Ok ns ∧
    ns !! "templates_path" = Some (VList (map VStr tp)) ∧
    ns !! "html_static_path" = Some (VList (map VStr sp)) ∧
    ns !! "html_logo" = Some (VStr logo) ∧
    ns !! "exclude_patterns" = Some (VList (map VStr pats)) ∧
    Forall (fun p => Forall (fun pat => ¬ lies_under pat p) pats) (tp ++ sp ++ [logo]).
Proof.
  exists (conf_values ∪ ns0), ["_templates"], ["_static"], "_static/logo-64.png",
    ["_build"; "Thumbs.db"; ".DS_Store"].
  split; [apply load_conf_ok|].
  split; [apply lookup_union_Some_l, conf_templates_path|].
  split; [apply lookup_union_Some_l, conf_html_static_path|].
  split; [apply lookup_union_Some_l, conf_html_logo|].
  split; [apply lookup_union_Some_l, conf_exclude_patterns|].
  compute_done.
Qed.

(** X9.  Every entry of [extensions], and the value of [html_theme],
    is a plain Python identifier: one name, with no dot and no other
    character, and not a reserved word. *)
Theorem X9_extension_names_identifiers (ns0 : gmap string value) :
  ∃ ns exts theme,
    load_conf ns0 = Ok ns ∧
    ns !! "extensions" = Some (VList (map VStr exts)) ∧
    ns !! "html_theme" = Some (VStr theme) ∧
    Forall is_identifier (theme :: exts).
Proof.
  exists (conf_values ∪ ns0), ["breathe"; "sphinx_rtd_theme"; "sphinx_togglebutton"],
    "sphinx_rtd_theme".
  split; [apply load_conf_ok|].
  split; [apply lookup_union_Some_l, conf_extensions|].
  split; [apply lookup_union_Some_l, conf_html_theme|].
  repeat constructor; vm_compute; reflexivity.
Qed.
